(** * Inline editing of notes: the handlers of the manuscript and of [Lane.jsx]

    A shallow embedding of the JavaScript handlers that own and edit the
    collection of notes:

    - [app/App.jsx] (manuscript, first listing of [App]):
      [activateNoteEdit] and the flag-only [editNote];
    - [app/components/App.jsx] (manuscript, second listing of [App]):
      the [editNote] that stores the new task;
    - [app/components/Note.jsx] (manuscript): the [Note] class with its
      own [editing] state, [edit], [checkEnter] and [finishEdit];
    - [app/components/Notes.jsx] (manuscript): one [Note] per note, with
      [onEdit] bound to the id of the note;
    - [app/Editable.jsx] (manuscript): the [Editable] stub with [Value]
      and [Edit];
    - [kanban_app/app/components/Lane.jsx]: [addNote] and [edited].

    [this.state.notes] is passed explicitly: a handler that ends in
    [this.setState({notes: ...})] is a function from the old array to the
    new one.  The callbacks of [Array.prototype.map] assign to the note
    objects in place and return the same objects, so the new array holds the
    updated notes in the old order; the model keeps that content. *)

From stdpp Require Import base numbers list strings relations pretty.

(** ** JavaScript strings *)

(** A JavaScript string is its sequence of UTF-16 code units. *)
Definition jsstring : Type := list N.

(** A literal whose characters are all below U+0100. *)
Definition js (s : string) : jsstring :=
  (λ c, Ascii.N_of_ascii c) <$> String.list_ascii_of_string s.

(** [ToBoolean] on a string: only the empty string is falsy. *)
Definition truthy (s : jsstring) : bool :=
  match s with
  | [] => false
  | _ :: _ => true
  end.

(** The code units that [String.prototype.trim] strips: ECMAScript's
    WhiteSpace (TAB, VT, FF, SP, NBSP, ZWNBSP and the space separators) and
    LineTerminator (LF, CR, LS, PS). *)
Definition is_whitespace (c : N) : bool :=
  ((c =? 0x0009) || (c =? 0x000B) || (c =? 0x000C) || (c =? 0x0020)
   || (c =? 0x00A0) || (c =? 0xFEFF) || (c =? 0x1680)
   || ((0x2000 <=? c) && (c <=? 0x200A))
   || (c =? 0x202F) || (c =? 0x205F) || (c =? 0x3000)
   || (c =? 0x000A) || (c =? 0x000D) || (c =? 0x2028) || (c =? 0x2029))%N.

Fixpoint trimStart (s : jsstring) : jsstring :=
  match s with
  | [] => []
  | c :: s' => if is_whitespace c then trimStart s' else s
  end.

Definition trimEnd (s : jsstring) : jsstring :=
  reverse (trimStart (reverse s)).

(** [s.trim()] *)
Definition trim (s : jsstring) : jsstring := trimEnd (trimStart s).

(** ** Notes *)

(** A note object [{id, task, editing}].  The projection of [id] is called
    [note_id], since [id] is the identity function of the library. *)
Record note (Id : Type) : Type := Note {
  note_id : Id;
  task : jsstring;
  editing : bool
}.
Arguments Note {Id} _ _ _.
Arguments note_id {Id} _.
Arguments task {Id} _.
Arguments editing {Id} _.

(** [note.editing = b] and [note.task = t] *)
Definition set_editing {Id} (b : bool) (n : note Id) : note Id :=
  Note (note_id n) (task n) b.
Definition set_task {Id} (t : jsstring) (n : note Id) : note Id :=
  Note (note_id n) t (editing n).

(** The ids of a collection, in render order. *)
Definition ids {Id} (notes : list (note Id)) : list Id := note_id <$> notes.

(** ** [app/App.jsx]: the editing flag *)

Module App.
Section handlers.
(** Ids are primitive values compared with [===]. *)
Context {Id : Type} `{EqDecision Id}.

(** [activateNoteEdit = (id) => this.setState({notes: notes.map(...)})];
    the [console.log] in front of it has no part in the state. *)
Definition activateNoteEdit (id : Id) (notes : list (note Id)) : list (note Id) :=
  (λ note, if decide (note_id note = id) then set_editing true note else note)
    <$> notes.

(** [editNote = (id, task) => ...]: resets the flag, [task] is not used. *)
Definition editNote (id : Id) (task : jsstring) (notes : list (note Id))
  : list (note Id) :=
  (λ note, if decide (note_id note = id) then set_editing false note else note)
    <$> notes.
End handlers.
End App.

(** ** [app/components/App.jsx]: the task *)

Module ComponentsApp.
Section handlers.
Context {Id : Type} `{EqDecision Id}.

(** [editNote = (id, task) => { if(!task.trim()) return; ... }]: the early
    return leaves [this.state] as it is; otherwise every note whose id is
    [id] gets [note.task = task]. *)
Definition editNote (id : Id) (task : jsstring) (notes : list (note Id))
  : list (note Id) :=
  if negb (truthy (trim task)) then notes
  else
    (λ note,
       if bool_decide (note_id note = id) && truthy task
       then set_task task note else note) <$> notes.
End handlers.
End ComponentsApp.

(** ** [kanban_app/app/components/Lane.jsx] *)

Module Lane.
Section handlers.
Context {Id : Type}.

(** The actions object that [edited] and [addNote] call into
    ([this.actions], or [LaneActions] for the lane's own name): each action
    yields an [R], whatever the store behind it does with the call. *)
Record Actions (R : Type) : Type := {
  create : jsstring → R;
  update : Id → jsstring → R;
  remove : Id → R
}.
Arguments create {R} _ _.
Arguments update {R} _ _ _.
Arguments remove {R} _ _.

(** [addNote() { this.actions.create('New note'); }] *)
Definition addNote {R} (actions : Actions R) : R :=
  create actions (js "New note").

(** [edited(actions, id, value) { if(value) {...} else {...} }] *)
Definition edited {R} (actions : Actions R) (id : Id) (value : jsstring) : R :=
  if truthy value then update actions id value
  else remove actions id.

(** The calls themselves, as data: the free actions object. *)
Inductive dispatched : Type :=
  | Create (task : jsstring)
  | Update (id : Id) (task : jsstring)
  | Remove (id : Id).

Definition recorded : Actions dispatched :=
  {| create := Create; update := Update; remove := Remove |}.
End handlers.
Arguments Actions : clear implicits.
Arguments dispatched : clear implicits.
Arguments create {Id R} _ _.
Arguments update {Id R} _ _ _.
Arguments remove {Id R} _ _.
End Lane.

(** ** The owner's add and remove *)

Module Owner.
Section operations.
Context {Id : Type} `{EqDecision Id}.

(** Modelled from the spec: the body of [addNote] of [App] is elided in the
    manuscript and the store's [create] is not part of the sources.  The
    spec's [add()] appends a new item with a freshly generated id, a
    default value and [editing=false]; [fresh] is what the id generator
    returned and [value] the default value. *)
Definition add (fresh : Id) (value : jsstring) (notes : list (note Id))
  : list (note Id) :=
  notes ++ [Note fresh value false].

(** Modelled from the spec: the body of [deleteNote] of [App] is elided in
    the manuscript and the store's [remove] is not part of the sources.
    The spec's [remove(id)] removes the item by id, unconditionally. *)
Definition remove (id : Id) (notes : list (note Id)) : list (note Id) :=
  filter (λ note, note_id note ≠ id) notes.
End operations.
End Owner.

(** ** The store behind a lane, and the ids of its notes *)

Module Store.
Section store.
Context {Id : Type} `{EqDecision Id}.

(** Modelled from the spec: the id generator is outside the sources; the
    spec has it as a collaborator that produces collision-free identifiers
    for new items.  [generator k] is the id it hands out at its [k]-th
    call, and that it is collision-free is [Inj (=) (=) generator]. *)
Context (generator : nat → Id).

(** The notes of the store, and how many ids the generator has handed
    out. *)
Record state : Type := State { notes : list (note Id); drawn : nat }.

(** Modelled from the spec: the store's [create] is not part of the
    sources.  The spec's [add()] appends a new item with a freshly generated
    id, a default value and [editing=false]: the id is the next one of the
    generator, the value the one [create] is called with. *)
Definition create (task : jsstring) (s : state) : state :=
  {| notes := Owner.add (generator (drawn s)) task (notes s);
     drawn := S (drawn s) |}.

(** Modelled from the spec: the store's [remove] is not part of the
    sources; the spec's [remove(id)], as [Owner.remove]. *)
Definition remove (id : Id) (s : state) : state :=
  {| notes := Owner.remove id (notes s); drawn := drawn s |}.

(** [this.actions] of a lane with this store behind it.  The store's
    [update] is not part of the sources either, and nothing is said of it:
    it is left open. *)
Definition actions (update : Id → jsstring → state → state)
  : Lane.Actions Id (state → state) :=
  {| Lane.create := create; Lane.update := update; Lane.remove := remove |}.


(** [items: () => this.store.getState().notes || []] after
    [this.actions.init(getInitialData(storeName))] in the constructor of
    [Lane].  [getInitialData] is not part of the sources: [stored] is the
    notes it comes back with, or nothing when nothing was stored. *)
Definition items (stored : option (list (note Id))) : list (note Id) :=
  default [] stored.



End store.
Arguments state : clear implicits.
End Store.

(** ** [app/Editable.jsx] *)

Module Editable.
Section components.
(** [H]: the callbacks handed down by the parent; [Rest]: the props that
    [Editable] passes on to its wrapper ([...props]). *)
Context {H Rest : Type}.

(** What an [onClick] attribute holds: the default [() => {}] or a prop. *)
Inductive listener : Type :=
  | noop
  | prop (h : H).

#[warnings="-register-all"]
Inductive element : Type :=
  | Text (s : jsstring)
  | Span (className : option jsstring) (children : list element)
  | Div (props : option Rest) (onClick : option listener) (children : list element)
  | EditElement (value : jsstring) (onEdit : option H)
  | ValueElement (value : jsstring) (onValueClick : option H).

(** [const Value = ({onValueClick = () => {}, value}) => ...] *)
Definition Value (onValueClick : option H) (value : jsstring) : element :=
  Div None (Some (from_option prop noop onValueClick))
    [Span (Some (js "value")) [Text value]].

(** [const Edit = ({value}) => <span>edit: {value}</span>] *)
Definition Edit (value : jsstring) (onEdit : option H) : element :=
  Span None [Text (js "edit: "); Text value].

(** [export default ({editing, value, onEdit, onValueClick, ...props}) => ...] *)
Definition Editable (editing : bool) (value : jsstring)
    (onEdit onValueClick : option H) (props : Rest) : element :=
  Div (Some props) None
    [if editing
     then EditElement value onEdit
     else ValueElement value onValueClick].

(** Rendering replaces each component element by what its function
    returns. *)
Fixpoint render (e : element) : element :=
  match e with
  | Text s => Text s
  | Span c children => Span c (map render children)
  | Div p l children => Div p l (map render children)
  | EditElement value onEdit => Edit value onEdit
  | ValueElement value onValueClick => Value onValueClick value
  end.

(** Which of the two views an [Editable] element holds. *)
Inductive branch : Type := InputView | ValueView.

Definition branch_of (e : element) : option branch :=
  match e with
  | Div _ _ [EditElement _ _] => Some InputView
  | Div _ _ [ValueElement _ _] => Some ValueView
  | _ => None
  end.
End components.
Arguments listener : clear implicits.
Arguments element : clear implicits.
End Editable.

(** ** [app/components/Note.jsx] *)

Module ComponentsNote.
Section component.
(** [H]: the callbacks a parent can hand down as [onEdit]. *)
Context {H : Type}.

(** [this.props] and [this.state] *)
Record props : Type := Props { task : jsstring; onEdit : option H }.
Record state : Type := State { editing : bool }.

(** The part of a DOM event the handlers read: [e.key] (undefined unless
  it is a keyboard event) and [e.target.value]. *)
Record event : Type := Event { key : option jsstring; target_value : jsstring }.

(** A handler runs on [this.state], may replace it with [setState], and may
  call a prop; the calls are collected in the order they are made. *)
Definition call : Type := H * jsstring.
Definition M (A : Type) : Type := state → A * state * list call.

#[global] Instance M_ret : MRet M := λ A a s, (a, s, []).
#[global] Instance M_bind : MBind M := λ A B f m s,
let '(a, s1, c1) := m s in
let '(b, s2, c2) := f a s1 in
(b, s2, c1 ++ c2).

Definition setState (s' : state) : M unit := λ _, (tt, s', []).
Definition callProp (f : H) (value : jsstring) : M unit := λ s, (tt, s, [(f, value)]).

(** [constructor(props)] *)
Definition constructor (p : props) : state := {| editing := false |}.

(** [edit = () => { this.setState({editing: true}); }] *)
Definition edit (p : props) (e : event) : M unit :=
setState {| editing := true |}.

(** [finishEdit = (e) => { ... }] *)
Definition finishEdit (p : props) (e : event) : M unit :=
let value := target_value e in
match onEdit p with
| Some f =>
    callProp f value;;
    setState {| editing := false |}
| None => mret tt
end.

(** [checkEnter = (e) => { if(e.key === 'Enter') { this.finishEdit(e); } }] *)
Definition checkEnter (p : props) (e : event) : M unit :=
if decide (key e = Some (js "Enter")) then finishEdit p e else mret tt.

(** What [render] returns: the input with its listeners, or the [div]. *)
Inductive view : Type :=
| input (selectionStart : nat) (autoFocus : bool) (defaultValue : jsstring)
    (onBlur onKeyPress : event → M unit)
| div (onClick : event → M unit) (children : jsstring).

Definition renderEdit (p : props) : view :=
input (length (task p)) true (task p) (finishEdit p) (checkEnter p).

Definition renderNote (p : props) : view :=
div (edit p) (task p).

Definition render (p : props) (s : state) : view :=
if editing s then renderEdit p else renderNote p.

(** What the user does: a click, leaving the field, or a key pressed in the
  field; [value] is what the field holds at that moment. *)
Inductive interaction : Type :=
| click
| blur (value : jsstring)
| keypress (key : jsstring) (value : jsstring).

(** An interaction reaches the listener that the rendered view has for it,
  if it has one. *)
Definition dispatch (p : props) (i : interaction) : M unit := λ s,
match render p s, i with
| div onClick _, click => onClick {| key := None; target_value := [] |} s
| input _ _ _ onBlur _, blur value =>
    onBlur {| key := None; target_value := value |} s
| input _ _ _ _ onKeyPress, keypress k value =>
    onKeyPress {| key := Some k; target_value := value |} s
| _, _ => (tt, s, [])
end.

(** A run of the component with its edit sessions numbered: a session opens
  when [editing] turns true, and each call of [onEdit] is recorded with the
  number of the session it was made in. *)
Record history : Type := History {
current : state;
session : nat;
calls : list (nat * call)
}.

Definition start (p : props) : history :=
{| current := constructor p; session := 0; calls := [] |}.

Definition next (p : props) (h : history) (i : interaction) : history :=
let '(_, s', cs) := dispatch p i (current h) in
let k := if negb (editing (current h)) && editing s'
         then S (session h) else session h in
{| current := s'; session := k; calls := calls h ++ (pair k <$> cs) |}.

Definition run (p : props) (events : list interaction) : history :=
foldl (next p) (start p) events.

(** The sessions that are over: all but the open one. *)
Definition finished (h : history) : nat :=
if editing (current h) then pred (session h) else session h.

(** The sessions are numbered well when the calls made so far are one for
    each finished session, in order, and a session that is open has a
    number. *)
Definition numbered (h : history) : Prop :=
  fst <$> calls h = seq 1 (finished h)
  ∧ (editing (current h) = true → 1 ≤ session h).
End component.
Arguments props : clear implicits.
Arguments call : clear implicits.
Arguments history : clear implicits.
End ComponentsNote.

(** ** [app/components/Notes.jsx], under [App] of [app/components/App.jsx] *)

Module ComponentsNotes.
Section tree.
Context {Id : Type} `{EqDecision Id}.

(** [<Note task={note.task} onEdit={onEdit.bind(null, note.id)} />] for each
    note: the callback of a [Note] is [onEdit] with the id of its note
    bound, and the id stands for it. *)
Definition Notes (notes : list (note Id)) : list (ComponentsNote.props Id) :=
  (λ note, ComponentsNote.Props (task note) (Some (note_id note))) <$> notes.

(** [<Notes notes={notes} onEdit={this.editNote} />]: a call of the
    callback bound to an id is a call of [editNote] of [App] with that id. *)
Definition onEdit (notes : list (note Id)) (c : ComponentsNote.call Id)
  : list (note Id) :=
  ComponentsApp.editNote c.1 c.2 notes.

(** The user acts on the [i]-th [Note].  The notes of this [App] have no
    [editing] property of their own: here the [editing] of a note holds
    [this.state.editing] of its [Note], which React keeps with the note
    under [key={note.id}].  The calls of [onEdit] reach [App] first, then
    the [Note] has its new state. *)
Definition interact (i : nat) (a : ComponentsNote.interaction)
    (notes : list (note Id)) : list (note Id) :=
  match Notes notes !! i, notes !! i with
  | Some p, Some n =>
      let '(_, s', calls) :=
        ComponentsNote.dispatch p a (ComponentsNote.State (editing n)) in
      alter (set_editing (ComponentsNote.editing s')) i (foldl onEdit notes calls)
  | _, _ => notes
  end.

(** The same on the [Note] of the note with a given id, if there is one. *)
Definition interact_with (id : Id) (a : ComponentsNote.interaction)
    (notes : list (note Id)) : list (note Id) :=
  match list_find (λ note, note_id note = id) notes with
  | Some (i, _) => interact i a notes
  | None => notes
  end.
End tree.
End ComponentsNotes.

(** ** Sequences of [activate] and [commit] *)

Module Scenario.
Section calls.
Context {Id : Type}.

Inductive op : Type :=
  | activate (id : Id)
  | commit (id : Id) (value : jsstring).

(** What serves [activate] and what serves [commit]. *)
Record owner : Type := Owner {
  on_activate : Id → list (note Id) → list (note Id);
  on_commit : Id → jsstring → list (note Id) → list (note Id)
}.

Definition perform (w : owner) (o : op) (notes : list (note Id))
  : list (note Id) :=
  match o with
  | activate id => on_activate w id notes
  | commit id value => on_commit w id value notes
  end.

(** The collection after each call. *)
Fixpoint states (w : owner) (ops : list op) (notes : list (note Id))
  : list (list (note Id)) :=
  match ops with
  | [] => []
  | o :: ops' =>
      let notes' := perform w o notes in
      notes' :: states w ops' notes'
  end.
End calls.
Arguments op : clear implicits.
Arguments owner : clear implicits.

(** [App] of [app/App.jsx]: both handlers of that listing. *)
Definition flag_owner : owner nat :=
  Owner App.activateNoteEdit App.editNote.

(** [activateNoteEdit] with [editNote] of [app/components/App.jsx]. *)
Definition task_owner : owner nat :=
  Owner App.activateNoteEdit ComponentsApp.editNote.

(** [App] of [app/components/App.jsx] with its [Notes]: a click on the note
    activates, leaving the field commits what it holds. *)
Definition tree_owner : owner nat :=
  Owner (λ id, ComponentsNotes.interact_with id ComponentsNote.click)
        (λ id value, ComponentsNotes.interact_with id (ComponentsNote.blur value)).

Definition start : list (note nat) :=
  [Note 1 (js "a") false; Note 2 (js "b") false].

(** [activate(1); commit(1,"aa"); activate(2); commit(2,"  ")] *)
Definition calls : list (op nat) :=
  [activate 1; commit 1 (js "aa"); activate 2; commit 2 (js "  ")].
End Scenario.

(** ** The rest of the listings *)

(** Every code unit of the string is one that [trim] strips. *)
Definition blank (s : jsstring) : bool := forallb is_whitespace s.

(** [ToString] of a number that holds a non-negative integer below 2^53:
    its decimal digits.  From 2^53 on not every integer is a number, and the
    digits of those that are can be other ones; for them there is no answer
    here. *)
Definition Number_toString (n : N) : option jsstring :=
  if (n <? 2 ^ 53)%N then Some (js (pretty n)) else None.

(** The [onClick] listeners of an element of [app/Editable.jsx], in document
    order; a component element that is not rendered yet has none.
    [listeners] is for elements whose other props hold no listener, as the
    class name that [Notes] passes; [listeners_with] takes what reads an
    [onClick] out of the other props, which [<div {...props}>] puts on the
    [div]. *)
Module EditableDom.
Section listeners.
Context {H Rest : Type}.

Fixpoint listeners_with (onClick_of : Rest → option H)
    (e : Editable.element H Rest) : list (Editable.listener H) :=
  match e with
  | Editable.Text _ => []
  | Editable.Span _ children => concat (map (listeners_with onClick_of) children)
  | Editable.Div props onClick children =>
      option_list (Editable.prop <$> (props ≫= onClick_of))
      ++ option_list onClick
      ++ concat (map (listeners_with onClick_of) children)
  | Editable.EditElement _ _ => []
  | Editable.ValueElement _ _ => []
  end.

Fixpoint listeners (e : Editable.element H Rest) : list (Editable.listener H) :=
  match e with
  | Editable.Text _ => []
  | Editable.Span _ children => concat (map listeners children)
  | Editable.Div _ onClick children =>
      option_list onClick ++ concat (map listeners children)
  | Editable.EditElement _ _ => []
  | Editable.ValueElement _ _ => []
  end.
End listeners.
End EditableDom.

(** [app/Notes.jsx], the listing with [Editable] *)

Module AppNotes.
Section render.
(** [H]: the callbacks of the parent. *)
Context {Id H : Type}.

(** [on.bind(null, id)]; when [on] is left out it is the default
    [() => {}], which does nothing with the id bound to it either. *)
Inductive bound : Type :=
  | nothing
  | call (h : H) (id : Id).

Definition bind (on : option H) (id : Id) : bound :=
  from_option (λ h, call h id) nothing on.

(** One [<li key={id}>] with its [<Note>]: the [Editable], with the class
    name as its other props, and the button. *)
Record li : Type := Li {
  key : Id;
  editable : Editable.element bound jsstring;
  button_onClick : bound
}.

(** [({notes, onValueClick=() => {}, onEdit=() => {}, onDelete=() => {}}) =>
      <ul>{notes.map(({id, editing, task}) => ...)}</ul>] *)
Definition Notes (notes : list (note Id))
    (onValueClick onEdit onDelete : option H) : list li :=
  (λ note,
     {| key := note_id note;
        editable :=
          Editable.Editable (editing note) (task note)
            (Some (bind onEdit (note_id note)))
            (Some (bind onValueClick (note_id note)))
            (js "editable");
        button_onClick := bind onDelete (note_id note) |}) <$> notes.
End render.
Arguments bound : clear implicits.
Arguments li : clear implicits.
End AppNotes.

(** [render] of [App] in [app/App.jsx], and a click on what it shows *)

Module AppView.
(** The methods of [App] that [render] hands out. *)
Inductive method : Type :=
  | addNote
  | activateNoteEdit
  | editNote
  | deleteNote.

Section render.
Context {Id : Type} `{EqDecision Id}.

Record view : Type := View {
  button_onClick : method;
  items : list (AppNotes.li Id method)
}.

(** [<div><button onClick={this.addNote}>+</button><Notes notes={notes}
      onValueClick={this.activateNoteEdit} onEdit={this.editNote}
      onDelete={this.deleteNote} /></div>] *)
Definition render (notes : list (note Id)) : view :=
  {| button_onClick := addNote;
     items := AppNotes.Notes notes
                (Some activateNoteEdit) (Some editNote) (Some deleteNote) |}.

(** What a click does when it reaches a listener.  Of the methods, only
    [activateNoteEdit] is given with its body and takes the id alone:
    [editNote] needs a value that a click does not carry, and the bodies of
    [addNote] and [deleteNote] are elided, so for those there is no
    answer. *)
Definition on_click (l : Editable.listener (AppNotes.bound Id method))
    (notes : list (note Id)) : option (list (note Id)) :=
  match l with
  | Editable.noop => Some notes
  | Editable.prop AppNotes.nothing => Some notes
  | Editable.prop (AppNotes.call activateNoteEdit id) =>
      Some (App.activateNoteEdit id notes)
  | Editable.prop (AppNotes.call _ _) => None
  end.

(** The user clicks into the [Editable] of the [i]-th item: the click
    reaches the listeners of what that [Editable] renders, one after the
    other. *)
Definition click_editable (i : nat) (notes : list (note Id))
  : option (list (note Id)) :=
  match items (render notes) !! i with
  | None => Some notes
  | Some item =>
      foldl (λ acc l, acc ≫= on_click l) (Some notes)
        (EditableDom.listeners (Editable.render (AppNotes.editable item)))
  end.
End render.
Arguments view : clear implicits.
End AppView.

(** The rest of [Lane] in [Lane.jsx] *)

Module LaneComponent.
Section lane.
(** [Id]: the ids of the notes; [Rest]: the props handed on to the [div]. *)
Context {Id Rest : Type}.

(** [props: {name: string; i: number}] and the others *)
Record props : Type := Props { name : jsstring; i : N; rest : Rest }.

(** [const storeName = 'NoteStore-' + this.props.i;] in the constructor *)
Definition storeName (p : props) : option jsstring :=
  (λ digits, js "NoteStore-" ++ digits) <$> Number_toString (i p).

(** A call that went to [LaneActions], or to [this.actions] of the lane. *)
Inductive sent : Type :=
  | to_LaneActions (d : Lane.dispatched N)
  | to_actions (d : Lane.dispatched Id).

Definition LaneActions : Lane.Actions N sent :=
  {| Lane.create := λ task, to_LaneActions (Lane.Create task);
     Lane.update := λ id task, to_LaneActions (Lane.Update id task);
     Lane.remove := λ id, to_LaneActions (Lane.Remove id) |}.

Definition actions : Lane.Actions Id sent :=
  {| Lane.create := λ task, to_actions (Lane.Create task);
     Lane.update := λ id task, to_actions (Lane.Update id task);
     Lane.remove := λ id, to_actions (Lane.Remove id) |}.

(** What [render] puts on the page, as far as values and callbacks go: the
    [div] with the other props, the [Editable] of the header with the name
    and [this.edited.bind(this, LaneActions, this.props.i)], the button with
    [this.addNote.bind(this)], and [Notes] with
    [this.edited.bind(this, this.actions)]. *)
Record view : Type := View {
  div_props : Rest;
  header_value : jsstring;
  header_onEdit : jsstring → sent;
  button_onClick : sent;
  Notes_onEdit : Id → jsstring → sent
}.

Definition render (p : props) : view :=
  {| div_props := rest p;
     header_value := name p;
     header_onEdit := Lane.edited LaneActions (i p);
     button_onClick := Lane.addNote actions;
     Notes_onEdit := Lane.edited actions |}.
End lane.
Arguments props : clear implicits.
Arguments sent : clear implicits.
Arguments view : clear implicits.
End LaneComponent.

(** * Properties *)

(** ** Strings *)

Lemma truthy_nil (s : jsstring) : truthy s = false ↔ s = [].
Proof. destruct s; split; intros; congruence || done. Qed.

Lemma truthy_cons (s : jsstring) : truthy s = true ↔ s ≠ [].
Proof. destruct s; split; intros; congruence || done. Qed.

Lemma trim_nil_truthy (s : jsstring) : trim s ≠ [] → truthy s = true.
Proof. destruct s; [intros []; reflexivity | done]. Qed.

Example trim_inner_space :
  trim (js "  a b  ") = js "a b" ∧ trim (js "   ") = [] ∧ trim [] = [].
Proof. repeat split; reflexivity. Qed.

(** ** Handlers that map over the notes *)

Section map_handlers.
Context {Id : Type} `{EqDecision Id}.
Implicit Types (notes : list (note Id)) (n : note Id) (id : Id).

Lemma ids_fmap_preserved (f : note Id → note Id) notes :
  (∀ n, note_id (f n) = note_id n) → ids (f <$> notes) = ids notes.
Proof.
  intros Hf. unfold ids. rewrite <- list_fmap_compose.
  apply list_fmap_ext. intros _ n _. apply Hf.
Qed.

Lemma fmap_unknown_id (f : note Id → note Id) id notes :
  (∀ n, note_id n ≠ id → f n = n) → id ∉ ids notes → f <$> notes = notes.
Proof.
  intros Hf Hid. induction notes as [|n notes IH]; [done|].
  unfold ids in Hid. rewrite fmap_cons, not_elem_of_cons in Hid.
  destruct Hid as [Hne Hid]. rewrite fmap_cons, IH by exact Hid.
  rewrite Hf; [done | congruence].
Qed.

Lemma ids_activateNoteEdit id notes :
  ids (App.activateNoteEdit id notes) = ids notes.
Proof. apply ids_fmap_preserved. intros n. by case_decide. Qed.


Lemma ids_editNote_task id v notes :
  ids (ComponentsApp.editNote id v notes) = ids notes.
Proof.
  unfold ComponentsApp.editNote. destruct (negb _); [done|].
  apply ids_fmap_preserved. intros n. by destruct (_ && _).
Qed.

(** What [editNote] of [app/components/App.jsx] does to one note once the
    blank check has passed. *)
Lemma editNote_task_lookup id v notes i :
  trim v ≠ [] →
  ComponentsApp.editNote id v notes !! i
  = (λ n, if decide (note_id n = id) then set_task v n else n) <$> notes !! i.
Proof.
  intros Hv. unfold ComponentsApp.editNote.
  assert (truthy (trim v) = true) as Ht by (apply truthy_cons; exact Hv).
  rewrite Ht, (trim_nil_truthy v Hv). simpl. rewrite list_lookup_fmap.
  destruct (notes !! i) as [n|]; [simpl|done].
  rewrite andb_true_r. case_bool_decide; case_decide; done.
Qed.
End map_handlers.

(** ** C3 and C10: activation *)

(** C3. For every item of the collection, [activateNoteEdit id] sets the
    editing flag of the item whose id is [id] to true and keeps its id and
    task; every other item is left as it is, and no item is added or
    dropped. *)
Theorem activateNoteEdit_sets_only_that_flag
    {Id : Type} `{EqDecision Id} (id : Id) (notes : list (note Id))
    (i : nat) (n : note Id) :
  notes !! i = Some n →
  length (App.activateNoteEdit id notes) = length notes
  ∧ ∃ n', App.activateNoteEdit id notes !! i = Some n'
      ∧ (note_id n = id → n' = Note id (task n) true)
      ∧ (note_id n ≠ id → n' = n).
Proof.
  intros Hn. unfold App.activateNoteEdit. split; [apply length_fmap|].
  rewrite list_lookup_fmap, Hn. simpl. eexists; split; [reflexivity|].
  case_decide as Hid; split; intros Hid'; try congruence.
  subst id. reflexivity.
Qed.

Lemma activateNoteEdit_sets_only_that_flag_witness :
  let notes := [Note 1 (js "a") false; Note 2 (js "b") true] in
  notes !! 0 = Some (Note 1 (js "a") false)
  ∧ length (App.activateNoteEdit 1 notes) = length notes
  ∧ ∃ n', App.activateNoteEdit 1 notes !! 0 = Some n'
      ∧ (1 = 1 → n' = Note 1 (js "a") true)
      ∧ (1 ≠ 1 → n' = Note 1 (js "a") false).
Proof.
  split; [reflexivity|].
  apply (activateNoteEdit_sets_only_that_flag 1
           [Note 1 (js "a") false; Note 2 (js "b") true] 0
           (Note 1 (js "a") false)).
  reflexivity.
Defined.

(** C10. [activateNoteEdit id] with an id that no item has returns the
    collection as it was; and for every id the result has the length of the
    collection and the same ids in the same order. *)
Theorem activateNoteEdit_unknown_id_and_shape
    {Id : Type} `{EqDecision Id} (id : Id) (notes : list (note Id)) :
  (id ∉ ids notes → App.activateNoteEdit id notes = notes)
  ∧ length (App.activateNoteEdit id notes) = length notes
  ∧ ids (App.activateNoteEdit id notes) = ids notes.
Proof.
  split; [|split].
  - intros Hid. apply (fmap_unknown_id _ id); [|exact Hid].
    intros n Hn. by case_decide.
  - apply length_fmap.
  - apply ids_activateNoteEdit.
Qed.

Lemma activateNoteEdit_unknown_id_and_shape_witness :
  let notes := [Note 1 (js "a") false; Note 2 (js "b") false] in
  (3 ∉ ids notes)
  ∧ App.activateNoteEdit 3 notes = notes
  ∧ length (App.activateNoteEdit 3 notes) = length notes
  ∧ ids (App.activateNoteEdit 3 notes) = ids notes.
Proof.
  assert (3 ∉ ids [Note 1 (js "a") false; Note 2 (js "b") false]) as Hid.
  { unfold ids. simpl. rewrite !not_elem_of_cons. repeat split; try lia.
    apply not_elem_of_nil. }
  split; [exact Hid|].
  destruct (activateNoteEdit_unknown_id_and_shape 3
              [Note 1 (js "a") false; Note 2 (js "b") false]) as (Hn & Hl & Hi).
  split; [exact (Hn Hid)|]. split; [exact Hl | exact Hi].
Defined.

(** ** The [Note]s under [App] *)

Section notes_tree.
Context {Id : Type} `{EqDecision Id}.
Implicit Types (notes : list (note Id)) (n : note Id) (id : Id) (v : jsstring).

(** A click on a note that is shown opens its field. *)
Lemma interact_click notes i n :
  notes !! i = Some n → editing n = false →
  ComponentsNotes.interact i ComponentsNote.click notes
  = alter (set_editing true) i notes.
Proof.
  intros Hn He. unfold ComponentsNotes.interact, ComponentsNotes.Notes.
  rewrite list_lookup_fmap, Hn, He. reflexivity.
Qed.

(** Leaving the field of a note hands the value to [editNote] with the id of
    the note and closes the field. *)
Lemma interact_blur notes i n v :
  notes !! i = Some n → editing n = true →
  ComponentsNotes.interact i (ComponentsNote.blur v) notes
  = alter (set_editing false) i (ComponentsApp.editNote (note_id n) v notes).
Proof.
  intros Hn He. unfold ComponentsNotes.interact, ComponentsNotes.Notes.
  rewrite list_lookup_fmap, Hn, He. reflexivity.
Qed.

(** Enter in the field does what leaving it does. *)
Lemma interact_enter notes i n v :
  notes !! i = Some n → editing n = true →
  ComponentsNotes.interact i (ComponentsNote.keypress (js "Enter") v) notes
  = ComponentsNotes.interact i (ComponentsNote.blur v) notes.
Proof.
  intros Hn He. unfold ComponentsNotes.interact, ComponentsNotes.Notes.
  rewrite list_lookup_fmap, Hn, He. reflexivity.
Qed.

(** With unique ids, the click does what [activateNoteEdit] does with the id
    of the note. *)
Lemma interact_click_activateNoteEdit notes i n :
  NoDup (ids notes) → notes !! i = Some n → editing n = false →
  ComponentsNotes.interact i ComponentsNote.click notes
  = App.activateNoteEdit (note_id n) notes.
Proof.
  intros Hnodup Hn He. rewrite (interact_click notes i n Hn He).
  apply list_eq. intros j. unfold App.activateNoteEdit.
  rewrite list_lookup_fmap. destruct (decide (i = j)) as [<-|Hij].
  - rewrite list_lookup_alter_eq, Hn. simpl. by rewrite decide_True.
  - rewrite list_lookup_alter_ne by exact Hij.
    destruct (notes !! j) as [m|] eqn:Hm; [simpl|done].
    rewrite decide_False; [done|]. intros Hid. apply Hij.
    apply (NoDup_lookup (ids notes) i j (note_id n)); [exact Hnodup| |].
    + unfold ids. by rewrite list_lookup_fmap, Hn.
    + unfold ids. rewrite list_lookup_fmap, Hm. simpl. by rewrite Hid.
Qed.
End notes_tree.

(** ** C1, C2 and C5: commit *)

(** C1, as the code has it.  For an item in editing state, committing a
    value that is empty or whitespace-only after trimming removes nothing.
    [editNote] of [app/components/App.jsx] returns before it touches the
    notes, so the collection is as before; with the [Note] that made the
    call, the edit is over: the item is kept with its value and
    [editing=false], every other item as it was.  [edited] of [Lane.jsx]
    hands a whitespace-only value to [update], untrimmed, and only the empty
    string to [remove]. *)
Theorem blank_commit_removes_nothing
    {Id : Type} `{EqDecision Id} (id : Id) (v : jsstring) (notes : list (note Id))
    (i : nat) (n : note Id) :
  trim v = [] →
  notes !! i = Some n →
  note_id n = id →
  editing n = true →
  ComponentsApp.editNote id v notes = notes
  ∧ ComponentsNotes.interact i (ComponentsNote.blur v) notes
    = alter (set_editing false) i notes
  ∧ ComponentsNotes.interact i (ComponentsNote.blur v) notes !! i
    = Some (Note id (task n) false)
  ∧ (v ≠ [] → Lane.edited Lane.recorded id v = Lane.Update id v)
  ∧ (v = [] → Lane.edited Lane.recorded id v = Lane.Remove id).
Proof.
  intros Hv Hn Hid He.
  assert (ComponentsApp.editNote id v notes = notes) as Hsame.
  { unfold ComponentsApp.editNote. by rewrite Hv. }
  assert (ComponentsNotes.interact i (ComponentsNote.blur v) notes
          = alter (set_editing false) i notes) as Hclosed.
  { rewrite (interact_blur notes i n v Hn He). by rewrite Hid, Hsame. }
  split; [exact Hsame|]. split; [exact Hclosed|]. split; [|split].
  - rewrite Hclosed, list_lookup_alter_eq, Hn. simpl. by rewrite <- Hid.
  - intros Hne. unfold Lane.edited. by destruct v.
  - by intros ->.
Qed.

Lemma blank_commit_removes_nothing_witness :
  let notes := [Note 1 (js "a") true; Note 2 (js "b") false] in
  ComponentsApp.editNote 1 (js "  ") notes = notes
  ∧ ComponentsNotes.interact 0 (ComponentsNote.blur (js "  ")) notes
    = [Note 1 (js "a") false; Note 2 (js "b") false]
  ∧ ComponentsNotes.interact 0 (ComponentsNote.blur []) notes !! 0
    = Some (Note 1 (js "a") false)
  ∧ Lane.edited Lane.recorded 1 (js "  ") = Lane.Update 1 (js "  ")
  ∧ Lane.edited Lane.recorded 1 [] = Lane.Remove 1.
Proof.
  pose proof (blank_commit_removes_nothing 1 (js "  ")
                [Note 1 (js "a") true; Note 2 (js "b") false] 0
                (Note 1 (js "a") true) eq_refl eq_refl eq_refl eq_refl)
    as (Hsame & Hclosed & _ & Hupdate & _).
  pose proof (blank_commit_removes_nothing 1 []
                [Note 1 (js "a") true; Note 2 (js "b") false] 0
                (Note 1 (js "a") true) eq_refl eq_refl eq_refl eq_refl)
    as (_ & _ & Hkept & _ & Hremove).
  assert (js "  " ≠ []) as Hne by discriminate.
  exact (conj Hsame (conj Hclosed (conj Hkept
           (conj (Hupdate Hne) (Hremove eq_refl))))).
Defined.

(** C1 fails as stated: the item that is being edited is still in the
    collection after a commit of the empty string or of two spaces, under
    [editNote] alone and with its [Note]; and [edited] answers two spaces
    with an update. *)
Lemma blank_commit_item_not_removed :
  let item := Note 1 (js "a") true in
  let notes := [item; Note 2 (js "b") false] in
  editing item = true
  ∧ trim [] = [] ∧ trim (js "  ") = []
  ∧ item ∈ ComponentsApp.editNote 1 [] notes
  ∧ item ∈ ComponentsApp.editNote 1 (js "  ") notes
  ∧ ComponentsApp.editNote 1 (js "  ") notes ≠ [Note 2 (js "b") false]
  ∧ ComponentsNotes.interact 0 (ComponentsNote.blur (js "  ")) notes
    = [Note 1 (js "a") false; Note 2 (js "b") false]
  ∧ ComponentsNotes.interact 0 (ComponentsNote.blur (js "  ")) notes
    ≠ [Note 2 (js "b") false]
  ∧ Lane.edited Lane.recorded 1 (js "  ") ≠ Lane.Remove 1.
Proof.
  repeat split; try reflexivity; try (vm_compute; by left); by vm_compute.
Qed.

(** C2, as the code has it.  For an item in editing state and a value that
    is not blank after trimming, the commit sets the value of the item to
    the value as it was given, untrimmed, and ends the edit.  [editNote] of
    [app/components/App.jsx] stores the value and keeps the editing flag;
    the [Note] that made the call then leaves its editing state, so that the
    item has the new value and [editing=false].  [editNote] of [app/App.jsx]
    sets the editing flag to false and keeps the value.  All of them leave
    the items with another id as they are. *)
Theorem nonblank_commit_by_handler
    {Id : Type} `{EqDecision Id} (id : Id) (v : jsstring) (notes : list (note Id))
    (i : nat) (n : note Id) :
  trim v ≠ [] →
  notes !! i = Some n →
  note_id n = id →
  editing n = true →
  ComponentsNotes.interact i (ComponentsNote.blur v) notes !! i
    = Some (Note id v false)
  ∧ ComponentsApp.editNote id v notes !! i = Some (Note id v true)
  ∧ App.editNote id v notes !! i = Some (Note id (task n) false)
  ∧ ∀ (j : nat) (m : note Id),
      notes !! j = Some m → note_id m ≠ id →
      ComponentsNotes.interact i (ComponentsNote.blur v) notes !! j = Some m
      ∧ ComponentsApp.editNote id v notes !! j = Some m
      ∧ App.editNote id v notes !! j = Some m.
Proof.
  intros Hv Hn <- He.
  rewrite (interact_blur notes i n v Hn He).
  split; [|split; [|split]].
  - rewrite list_lookup_alter_eq, editNote_task_lookup, Hn by exact Hv.
    simpl. by rewrite decide_True.
  - rewrite editNote_task_lookup, Hn by exact Hv. simpl.
    rewrite decide_True by reflexivity. unfold set_task. by rewrite He.
  - unfold App.editNote. rewrite list_lookup_fmap, Hn. simpl.
    by rewrite decide_True.
  - intros j m Hm Hne.
    assert (i ≠ j) as Hij by (intros <-; congruence).
    split; [|split].
    + rewrite list_lookup_alter_ne, editNote_task_lookup, Hm by done.
      simpl. by rewrite decide_False.
    + rewrite editNote_task_lookup, Hm by exact Hv. simpl.
      by rewrite decide_False.
    + unfold App.editNote. rewrite list_lookup_fmap, Hm. simpl.
      by rewrite decide_False.
Qed.

Lemma nonblank_commit_by_handler_witness :
  let notes := [Note 1 (js "a") true; Note 2 (js "b") false] in
  ComponentsNotes.interact 0 (ComponentsNote.blur (js " x ")) notes !! 0
    = Some (Note 1 (js " x ") false)
  ∧ ComponentsApp.editNote 1 (js " x ") notes !! 0 = Some (Note 1 (js " x ") true)
  ∧ App.editNote 1 (js " x ") notes !! 0 = Some (Note 1 (js "a") false)
  ∧ ComponentsNotes.interact 0 (ComponentsNote.blur (js " x ")) notes !! 1
    = Some (Note 2 (js "b") false).
Proof.
  assert (trim (js " x ") ≠ []) as Hv by (vm_compute; discriminate).
  pose proof (nonblank_commit_by_handler 1 (js " x ")
                [Note 1 (js "a") true; Note 2 (js "b") false] 0
                (Note 1 (js "a") true) Hv eq_refl eq_refl eq_refl)
    as (Hitem & Htask & Hflag & Hothers).
  assert (2 ≠ 1) as Hne by lia.
  exact (conj Hitem (conj Htask (conj Hflag
           (proj1 (Hothers 1 (Note 2 (js "b") false) eq_refl Hne))))).
Defined.

(** C2 fails as stated: committing " x " to an item in editing state never
    gives it the trimmed value "x".  [editNote] of [app/components/App.jsx]
    stores the value with its spaces, alone and with its [Note]; [editNote]
    of [app/App.jsx] keeps the old value. *)
Lemma nonblank_commit_not_trimmed_and_reset :
  let notes := [Note 1 (js "a") true] in
  trim (js " x ") = js "x"
  ∧ ComponentsApp.editNote 1 (js " x ") notes = [Note 1 (js " x ") true]
  ∧ ComponentsNotes.interact 0 (ComponentsNote.blur (js " x ")) notes
    = [Note 1 (js " x ") false]
  ∧ App.editNote 1 (js " x ") notes = [Note 1 (js "a") false]
  ∧ ComponentsApp.editNote 1 (js " x ") notes ≠ [Note 1 (js "x") false]
  ∧ ComponentsNotes.interact 0 (ComponentsNote.blur (js " x ")) notes
    ≠ [Note 1 (js "x") false]
  ∧ App.editNote 1 (js " x ") notes ≠ [Note 1 (js "x") false].
Proof.
  repeat split; try reflexivity; by vm_compute.
Qed.

(** C5.  For an id that no item has, both [editNote] handlers return the
    collection as it was, whatever the value, and so does [remove]; all
    three are total functions, so there is no fault to raise. *)
Theorem unknown_id_is_noop
    {Id : Type} `{EqDecision Id} (id : Id) (v : jsstring) (notes : list (note Id)) :
  id ∉ ids notes →
  ComponentsApp.editNote id v notes = notes
  ∧ App.editNote id v notes = notes
  ∧ Owner.remove id notes = notes.
Proof.
  intros Hid. split; [|split].
  - unfold ComponentsApp.editNote. destruct (negb _); [done|].
    apply (fmap_unknown_id _ id); [|exact Hid].
    intros n Hn. by rewrite bool_decide_false.
  - apply (fmap_unknown_id _ id); [|exact Hid].
    intros n Hn. by case_decide.
  - unfold Owner.remove. induction notes as [|n notes IH]; [done|].
    unfold ids in Hid. rewrite fmap_cons, not_elem_of_cons in Hid.
    destruct Hid as [Hne Hid]. rewrite filter_cons_True by congruence.
    by rewrite IH.
Qed.

Lemma unknown_id_is_noop_witness :
  let notes := [Note 1 (js "a") true; Note 2 (js "b") false] in
  (3 ∉ ids notes)
  ∧ ComponentsApp.editNote 3 (js "x") notes = notes
  ∧ App.editNote 3 (js "x") notes = notes
  ∧ Owner.remove 3 notes = notes.
Proof.
  assert (3 ∉ ids [Note 1 (js "a") true; Note 2 (js "b") false]) as Hid.
  { unfold ids. simpl. rewrite !not_elem_of_cons. repeat split; try lia.
    apply not_elem_of_nil. }
  split; [exact Hid|].
  exact (unknown_id_is_noop 3 (js "x")
           [Note 1 (js "a") true; Note 2 (js "b") false] Hid).
Defined.

(** ** C9: [edited] of [Lane.jsx] *)

(** C9.  [edited] decides on the value as it was committed, by its
    truthiness: it calls [remove(id)] when the value is the empty string
    and [update(id, value)], with the value untrimmed, in every other case,
    a whitespace-only value included; of the recorded calls, the one for
    [id] and [value] is a removal if and only if [value] is empty. *)
Theorem edited_decides_on_raw_value
    {Id R : Type} (actions : Lane.Actions Id R) (id : Id) (value : jsstring) :
  (value = [] → Lane.edited actions id value = Lane.remove actions id)
  ∧ (value ≠ [] → Lane.edited actions id value = Lane.update actions id value)
  ∧ (Lane.edited Lane.recorded id value = Lane.Remove id ↔ value = [])
  ∧ (value ≠ [] → trim value = [] →
     Lane.edited Lane.recorded id value = Lane.Update id value).
Proof.
  unfold Lane.edited. destruct value as [|c value]; simpl.
  - repeat split; done.
  - repeat split; done.
Qed.

Lemma edited_decides_on_raw_value_witness :
  Lane.edited Lane.recorded 2 [] = Lane.Remove 2
  ∧ Lane.edited Lane.recorded 2 (js "  ") = Lane.Update 2 (js "  ")
  ∧ trim (js "  ") = [].
Proof.
  split; [|split].
  - by apply (edited_decides_on_raw_value Lane.recorded 2 []).
  - apply (edited_decides_on_raw_value Lane.recorded 2 (js "  "));
      [discriminate | reflexivity].
  - reflexivity.
Defined.

(** ** C4: the scenario *)

(** C4, as the code has it.  From [{1,"a",false},{2,"b",false}], with [App]
    of [app/components/App.jsx] and its [Note]s, [activate(1)] gives
    [{1,"a",true},{2,"b",false}], [commit(1,"aa")] gives
    [{1,"aa",false},{2,"b",false}], [activate(2)] gives
    [{1,"aa",false},{2,"b",true}] and [commit(2,"  ")] gives
    [{1,"aa",false},{2,"b",false}]: item 2 is kept, with its value.  Taken
    by themselves after [activateNoteEdit], [editNote] of
    [app/components/App.jsx] stores "aa" and keeps both flags, and
    [editNote] of [app/App.jsx] resets the flags and keeps both values;
    neither removes item 2. *)
Theorem scenario_states :
  Scenario.states Scenario.tree_owner Scenario.calls Scenario.start
  = [ [Note 1 (js "a") true; Note 2 (js "b") false];
      [Note 1 (js "aa") false; Note 2 (js "b") false];
      [Note 1 (js "aa") false; Note 2 (js "b") true];
      [Note 1 (js "aa") false; Note 2 (js "b") false] ]
  ∧ Scenario.states Scenario.task_owner Scenario.calls Scenario.start
  = [ [Note 1 (js "a") true; Note 2 (js "b") false];
      [Note 1 (js "aa") true; Note 2 (js "b") false];
      [Note 1 (js "aa") true; Note 2 (js "b") true];
      [Note 1 (js "aa") true; Note 2 (js "b") true] ]
  ∧ Scenario.states Scenario.flag_owner Scenario.calls Scenario.start
  = [ [Note 1 (js "a") true; Note 2 (js "b") false];
      [Note 1 (js "a") false; Note 2 (js "b") false];
      [Note 1 (js "a") false; Note 2 (js "b") true];
      [Note 1 (js "a") false; Note 2 (js "b") false] ].
Proof. repeat split; reflexivity. Qed.

(** C4 fails as stated: the last collection is [{1,"aa",false}] under none
    of the three, item 2 is in it each time; and [edited] of [Lane.jsx]
    answers [commit(2,"  ")] with an update, not with a removal. *)
Lemma scenario_not_as_claimed :
  let final := [Note 1 (js "aa") false] in
  last (Scenario.states Scenario.tree_owner Scenario.calls Scenario.start)
    = Some [Note 1 (js "aa") false; Note 2 (js "b") false]
  ∧ last (Scenario.states Scenario.tree_owner Scenario.calls Scenario.start)
    ≠ Some final
  ∧ last (Scenario.states Scenario.task_owner Scenario.calls Scenario.start)
    ≠ Some final
  ∧ last (Scenario.states Scenario.flag_owner Scenario.calls Scenario.start)
    ≠ Some final
  ∧ Lane.edited Lane.recorded 2 (js "  ") = Lane.Update 2 (js "  ").
Proof. repeat split; by vm_compute. Qed.

(** ** C8: unique ids *)

Section unique_ids.
Context {Id : Type} `{EqDecision Id}.
Context (generator : nat → Id) (update : Id → jsstring → Store.state Id → Store.state Id).
Implicit Types (notes : list (note Id)) (id fresh : Id) (s : Store.state Id).








End unique_ids.



(** [addNote] of [Lane.jsx] asks for one note with the default task. *)
Lemma addNote_creates_default :
  Lane.addNote (Id := nat) Lane.recorded = Lane.Create (js "New note").
Proof. reflexivity. Qed.

(** ** C7: [Editable] *)

(** C7.  What [Editable] returns is fixed by its props alone: two calls with
    the same [editing], [value], callbacks and other props return the same
    element, and the branch is picked by [editing], whatever the other props
    are.  With [editing] true the wrapper holds the [Edit] element and
    renders what [Edit] returns for [value]; with [editing] false it holds
    the [Value] element and renders what [Value] returns for [value] and
    [onValueClick]. *)
Theorem Editable_branches_on_editing
    {H Rest : Type} (editing editing' : bool) (value value' : jsstring)
    (onEdit onEdit' onValueClick onValueClick' : option H) (props props' : Rest) :
  (editing = editing' → value = value' → onEdit = onEdit' →
   onValueClick = onValueClick' → props = props' →
   Editable.Editable editing value onEdit onValueClick props
   = Editable.Editable editing' value' onEdit' onValueClick' props')
  ∧ (editing = editing' →
     Editable.branch_of (Editable.Editable editing value onEdit onValueClick props)
     = Editable.branch_of
         (Editable.Editable editing' value' onEdit' onValueClick' props'))
  ∧ Editable.branch_of (Editable.Editable editing value onEdit onValueClick props)
    = Some (if editing then Editable.InputView else Editable.ValueView)
  ∧ Editable.render (Editable.Editable true value onEdit onValueClick props)
    = Editable.Div (Some props) None [Editable.Edit value onEdit]
  ∧ Editable.render (Editable.Editable false value onEdit onValueClick props)
    = Editable.Div (Some props) None [Editable.Value onValueClick value].
Proof.
  split; [|split; [|split; [|split]]].
  - by intros -> -> -> -> ->.
  - intros ->. by destruct editing'.
  - by destruct editing.
  - reflexivity.
  - reflexivity.
Qed.

Lemma Editable_branches_on_editing_witness :
  Editable.Editable true (js "a") (Some 1) (Some 2) (js "editable")
  = Editable.Editable true (js "a") (Some 1) (Some 2) (js "editable")
  ∧ Editable.branch_of
      (Editable.Editable true (js "a") (Some 1) (Some 2) (js "editable"))
    = Editable.branch_of
        (Editable.Editable true (js "b") None (Some 3) (js "lane-name"))
  ∧ Editable.branch_of
      (Editable.Editable true (js "a") (Some 1) (Some 2) (js "editable"))
    = Some Editable.InputView.
Proof.
  pose proof (Editable_branches_on_editing true true (js "a") (js "a")
                (Some 1) (Some 1) (Some 2) (Some 2) (js "editable") (js "editable"))
    as (Hsame & _ & Hbranch & _).
  pose proof (Editable_branches_on_editing true true (js "a") (js "b")
                (Some 1) None (Some 2) (Some 3) (js "editable") (js "lane-name"))
    as (_ & Hpick & _).
  exact (conj (Hsame eq_refl eq_refl eq_refl eq_refl eq_refl)
           (conj (Hpick eq_refl) Hbranch)).
Defined.

(** ** C6: [onEdit] and the edit sessions of [Note] *)

Section note_sessions.
Context {H : Type}.
Implicit Types (p : ComponentsNote.props H) (s : ComponentsNote.state)
  (h : ComponentsNote.history H) (v : jsstring).

Lemma finishEdit_with_onEdit p f e s :
  ComponentsNote.onEdit p = Some f →
  ComponentsNote.finishEdit p e s
  = (tt, ComponentsNote.State false, [(f, ComponentsNote.target_value e)]).
Proof. intros Hf. unfold ComponentsNote.finishEdit. by rewrite Hf. Qed.

Lemma finishEdit_without_onEdit p e s :
  ComponentsNote.onEdit p = None →
  ComponentsNote.finishEdit p e s = (tt, s, []).
Proof. intros Hf. unfold ComponentsNote.finishEdit. by rewrite Hf. Qed.

(** While the [div] is shown, only a click does anything. *)
Lemma dispatch_viewing p i :
  ComponentsNote.dispatch p i (ComponentsNote.State false)
  = match i with
    | ComponentsNote.click => (tt, ComponentsNote.State true, [])
    | _ => (tt, ComponentsNote.State false, [])
    end.
Proof. by destruct i. Qed.

Lemma numbered_close k (cs : list (nat * ComponentsNote.call H)) c :
  1 ≤ k → fst <$> cs = seq 1 (pred k) →
  fst <$> (cs ++ (pair k <$> [c])) = seq 1 k.
Proof.
  intros Hk Hcs. destruct k as [|k]; [lia|].
  rewrite fmap_app, Hcs, seq_S. reflexivity.
Qed.

Lemma next_numbered p h i :
  ComponentsNote.numbered h →
  ComponentsNote.numbered (ComponentsNote.next p h i).
Proof.
  destruct h as [[b] k cs].
  unfold ComponentsNote.numbered, ComponentsNote.finished. simpl.
  intros [Hcalls Hopen]. unfold ComponentsNote.next. simpl.
  destruct b.
  - specialize (Hopen eq_refl).
    assert (∀ e,
      let '(_, s', cs') := ComponentsNote.finishEdit p e (ComponentsNote.State true) in
      fst <$> (cs ++ (pair k <$> cs'))
      = seq 1 (if ComponentsNote.editing s' then pred k else k)
      ∧ (ComponentsNote.editing s' = true → 1 ≤ k)) as Hfinish.
    { intros e. unfold ComponentsNote.finishEdit.
      destruct (ComponentsNote.onEdit p) as [f|]; simpl.
      - split; [by apply numbered_close | done].
      - rewrite app_nil_r. by split. }
    destruct i as [|v|key v]; unfold ComponentsNote.dispatch; simpl.
    + rewrite app_nil_r. by split.
    + specialize (Hfinish (ComponentsNote.Event None v)).
      by destruct (ComponentsNote.finishEdit p _ _) as [[[] s'] cs'].
    + unfold ComponentsNote.checkEnter. simpl. case_decide.
      * specialize (Hfinish (ComponentsNote.Event (Some key) v)).
        by destruct (ComponentsNote.finishEdit p _ _) as [[[] s'] cs'].
      * simpl. rewrite app_nil_r. by split.
  - rewrite dispatch_viewing. destruct i; simpl; rewrite app_nil_r.
    + split; [exact Hcalls | lia].
    + by split.
    + by split.
Qed.

Lemma run_numbered p events :
  ComponentsNote.numbered (ComponentsNote.run p events).
Proof.
  unfold ComponentsNote.run.
  induction events as [|i events IH] using rev_ind.
  - by split.
  - rewrite foldl_snoc. by apply next_numbered.
Qed.
End note_sessions.

(** C6.  Over any sequence of clicks, blurs and key presses on a [Note], the
    calls of [onEdit] are one for each finished edit session, in the order
    of the sessions, and none for a session that is still open.  And when
    the field is shown and [onEdit] is there, Enter followed by a blur calls
    [onEdit] once, with the value at Enter: [finishEdit] has left the
    editing state, the field and its blur listener are no longer rendered,
    and the blur reaches nothing. *)
Theorem onEdit_once_per_session
    {H : Type} (p : ComponentsNote.props H)
    (events : list ComponentsNote.interaction) :
  fst <$> ComponentsNote.calls (ComponentsNote.run p events)
  = seq 1 (ComponentsNote.finished (ComponentsNote.run p events))
  ∧ ∀ (f : H) (s : ComponentsNote.state) (v v' : jsstring),
      ComponentsNote.onEdit p = Some f →
      ComponentsNote.editing s = true →
      (ComponentsNote.dispatch p (ComponentsNote.keypress (js "Enter") v);;
       ComponentsNote.dispatch p (ComponentsNote.blur v')) s
      = (tt, ComponentsNote.State false, [(f, v)]).
Proof.
  split; [apply run_numbered|].
  intros f [[]] v v' Hf Hs; [clear Hs | discriminate Hs].
  unfold mbind, ComponentsNote.M_bind, ComponentsNote.dispatch. simpl.
  unfold ComponentsNote.checkEnter. simpl.
  rewrite (finishEdit_with_onEdit p f) by exact Hf. reflexivity.
Qed.

Lemma onEdit_once_per_session_witness :
  let p := ComponentsNote.Props (js "a") (Some tt) in
  let events :=
    [ComponentsNote.click; ComponentsNote.keypress (js "Enter") (js "aa");
     ComponentsNote.blur (js "aa"); ComponentsNote.click;
     ComponentsNote.blur (js "b"); ComponentsNote.click] in
  fst <$> ComponentsNote.calls (ComponentsNote.run p events)
  = seq 1 (ComponentsNote.finished (ComponentsNote.run p events))
  ∧ (ComponentsNote.dispatch p (ComponentsNote.keypress (js "Enter") (js "aa"));;
     ComponentsNote.dispatch p (ComponentsNote.blur (js "aa")))
      (ComponentsNote.State true)
    = (tt, ComponentsNote.State false, [(tt, js "aa")]).
Proof.
  pose proof (onEdit_once_per_session
                (ComponentsNote.Props (js "a") (Some tt))
                [ComponentsNote.click;
                 ComponentsNote.keypress (js "Enter") (js "aa");
                 ComponentsNote.blur (js "aa"); ComponentsNote.click;
                 ComponentsNote.blur (js "b"); ComponentsNote.click])
    as [Hcalls Honce].
  exact (conj Hcalls
           (Honce tt (ComponentsNote.State true) (js "aa") (js "aa")
              eq_refl eq_refl)).
Defined.

(** The same run, evaluated: two sessions are over, a third is open, and
    [onEdit] was called once for the first and once for the second. *)
Example run_three_sessions :
  let p := ComponentsNote.Props (js "a") (Some tt) in
  let h := ComponentsNote.run p
    [ComponentsNote.click; ComponentsNote.keypress (js "Enter") (js "aa");
     ComponentsNote.blur (js "aa"); ComponentsNote.click;
     ComponentsNote.blur (js "b"); ComponentsNote.click] in
  ComponentsNote.calls h = [(1, (tt, js "aa")); (2, (tt, js "b"))]
  ∧ ComponentsNote.session h = 3
  ∧ ComponentsNote.current h = ComponentsNote.State true.
Proof. repeat split; reflexivity. Qed.

(** [finishEdit] taken by itself keeps no record of an earlier call: it is
    the rendered view that keeps a second event from reaching it. *)
Lemma finishEdit_alone_calls_again :
  let p := ComponentsNote.Props (js "a") (Some tt) in
  let e := ComponentsNote.Event None (js "aa") in
  (ComponentsNote.finishEdit p e;; ComponentsNote.finishEdit p e)
    (ComponentsNote.State true)
  = (tt, ComponentsNote.State false, [(tt, js "aa"); (tt, js "aa")]).
Proof. reflexivity. Qed.

(** * More properties of the handlers *)

(** ** Blank strings *)

Lemma trimStart_nil (s : jsstring) : trimStart s = [] ↔ blank s = true.
Proof.
  induction s as [|c s IH]; [done|]. unfold blank in *. simpl.
  destruct (is_whitespace c); simpl; [exact IH|]. split; discriminate.
Qed.

Lemma blank_trimStart (s : jsstring) : blank (trimStart s) = blank s.
Proof.
  induction s as [|c s IH]; [done|]. unfold blank in *. simpl.
  destruct (is_whitespace c) eqn:Hc; simpl; [exact IH|]. by rewrite Hc.
Qed.

Lemma blank_reverse (s : jsstring) : blank (reverse s) = blank s.
Proof.
  induction s as [|c s IH]; [done|]. unfold blank in *.
  rewrite reverse_cons, forallb_app, IH. simpl.
  rewrite andb_true_r. apply andb_comm.
Qed.

Lemma trim_nil_blank (s : jsstring) : trim s = [] ↔ blank s = true.
Proof.
  unfold trim, trimEnd. rewrite <- (blank_trimStart s).
  rewrite <- (blank_reverse (trimStart s)), <- trimStart_nil.
  split; [|by intros ->].
  intros Hnil. by rewrite <- (reverse_involutive (trimStart _)), Hnil.
Qed.

Lemma truthy_trim (s : jsstring) : truthy (trim s) = negb (blank s).
Proof.
  destruct (blank s) eqn:Hb; simpl.
  - apply truthy_nil. by apply trim_nil_blank.
  - apply truthy_cons. rewrite trim_nil_blank. congruence.
Qed.

Lemma blank_false_truthy (s : jsstring) : blank s = false → truthy s = true.
Proof. by destruct s. Qed.

(** ** The two [editNote] and [activateNoteEdit], put together *)

Section handler_algebra.
Context {Id : Type} `{EqDecision Id}.
Implicit Types (notes : list (note Id)) (n : note Id) (id : Id) (v : jsstring).

Lemma editNote_task_fmap id v notes :
  ComponentsApp.editNote id v notes
  = if blank v then notes
    else (λ n, if decide (note_id n = id) then set_task v n else n) <$> notes.
Proof.
  unfold ComponentsApp.editNote. rewrite truthy_trim, negb_involutive.
  destruct (blank v) eqn:Hb; [done|].
  rewrite (blank_false_truthy v Hb). apply list_fmap_ext. intros _ n _.
  rewrite andb_true_r. case_bool_decide; case_decide; done.
Qed.
End handler_algebra.

(** X1.  [activateNoteEdit] twice with the same id is [activateNoteEdit]
    once, and two activations can be made in either order. *)
Theorem activateNoteEdit_idempotent_commutes
    {Id : Type} `{EqDecision Id} (a b : Id) (notes : list (note Id)) :
  App.activateNoteEdit a (App.activateNoteEdit a notes)
  = App.activateNoteEdit a notes
  ∧ App.activateNoteEdit a (App.activateNoteEdit b notes)
    = App.activateNoteEdit b (App.activateNoteEdit a notes).
Proof.
  unfold App.activateNoteEdit. rewrite <- !list_fmap_compose.
  split; apply list_fmap_ext; intros _ n _; simpl;
    repeat (case_decide; simpl in * ); done.
Qed.

(** X2.  [editNote] of [app/App.jsx] drops the value it is given: the
    result is the same for every value and no task changes.  It takes back
    an activation of the same id, and gives the collection as it was when
    the notes of that id were not being edited before. *)
Theorem editNote_flag_drops_value_and_undoes_activation
    {Id : Type} `{EqDecision Id} (id : Id) (v v' : jsstring)
    (notes : list (note Id)) :
  App.editNote id v notes = App.editNote id v' notes
  ∧ task <$> App.editNote id v notes = task <$> notes
  ∧ App.editNote id v (App.activateNoteEdit id notes) = App.editNote id v notes
  ∧ ((∀ n, n ∈ notes → note_id n = id → editing n = false) →
     App.editNote id v (App.activateNoteEdit id notes) = notes).
Proof.
  assert (App.editNote id v (App.activateNoteEdit id notes)
          = App.editNote id v notes) as Hundo.
  { unfold App.editNote, App.activateNoteEdit. rewrite <- list_fmap_compose.
    apply list_fmap_ext. intros _ n _. simpl.
    repeat (case_decide; simpl in * ); done. }
  split; [reflexivity|]. split; [|split; [exact Hundo|]].
  - unfold App.editNote. rewrite <- list_fmap_compose.
    apply list_fmap_ext. intros _ n _. simpl. by case_decide.
  - intros Hview. rewrite Hundo. unfold App.editNote.
    rewrite <- (list_fmap_id notes) at 2. apply list_fmap_ext.
    intros i n Hn. case_decide as Hid; [|done].
    destruct n as [nid t e]. unfold set_editing. simpl in *.
    rewrite <- (Hview (Note nid t e)); [done| |done].
    by eapply list_elem_of_lookup_2.
Qed.

Lemma editNote_flag_drops_value_and_undoes_activation_witness :
  let notes := [Note 1 (js "a") false; Note 2 (js "b") true] in
  App.editNote 1 (js "aa") (App.activateNoteEdit 1 notes) = notes.
Proof.
  apply (editNote_flag_drops_value_and_undoes_activation 1 (js "aa") []
           [Note 1 (js "a") false; Note 2 (js "b") true]).
  intros n Hn Hid. apply elem_of_cons in Hn as [->|Hn]; [done|].
  apply list_elem_of_singleton in Hn as ->. discriminate Hid.
Defined.

Lemma fmap_fixes_list {A : Type} (f : A → A) (l : list A) :
  f <$> l = l ↔ ∀ x, x ∈ l → f x = x.
Proof.
  induction l as [|a l IH]; [by split; [intros _ x ?%elem_of_nil|]|].
  rewrite fmap_cons. split.
  - intros Heq. injection Heq as Ha Hl. intros x [->|Hx]%elem_of_cons; [done|].
    by apply IH.
  - intros Hfix. rewrite (Hfix a) by by left. f_equal. apply IH.
    intros x Hx. apply Hfix. by right.
Qed.

(** X3.  [editNote] of [app/components/App.jsx] in one piece: a value made
    of whitespace only, the empty one included, changes nothing; any other
    value becomes the task of every note that has the id, also when several
    notes have it, and the test of [task] inside the callback never decides.
    The notes come out as they were exactly when the value is such a blank
    one or every note that has the id has that value as its task already,
    which is so when no note has the id. *)
Theorem editNote_task_closed_form
    {Id : Type} `{EqDecision Id} (id : Id) (v : jsstring) (notes : list (note Id)) :
  ComponentsApp.editNote id v notes
  = (if blank v then notes
     else (λ n, if decide (note_id n = id) then set_task v n else n) <$> notes)
  ∧ (ComponentsApp.editNote id v notes = notes
     ↔ blank v = true ∨ ∀ n, n ∈ notes → note_id n = id → task n = v).
Proof.
  split; [apply editNote_task_fmap|].
  rewrite editNote_task_fmap. destruct (blank v); [by split; [left|]|].
  rewrite fmap_fixes_list. split.
  - intros Hfix. right. intros n Hn Hid. specialize (Hfix n Hn).
    rewrite decide_True in Hfix by exact Hid. by rewrite <- Hfix.
  - intros [Hb|Hsame] n Hn; [discriminate Hb|].
    case_decide as Hid; [|done]. destruct n as [nid t e].
    unfold set_task. simpl. f_equal. symmetry. by apply (Hsame _ Hn).
Qed.

Example editNote_task_same_value :
  ComponentsApp.editNote 1 (js "a") [Note 1 (js "a") true; Note 2 (js "b") false]
  = [Note 1 (js "a") true; Note 2 (js "b") false]
  ∧ blank (js "a") = false.
Proof. split; reflexivity. Qed.

(** X4.  [editNote] of [app/components/App.jsx] writes tasks only: the
    editing flags, the ids and their order, and the number of notes are as
    before, for every id and value. *)
Theorem editNote_task_keeps_flags_and_ids
    {Id : Type} `{EqDecision Id} (id : Id) (v : jsstring) (notes : list (note Id)) :
  editing <$> ComponentsApp.editNote id v notes = editing <$> notes
  ∧ ids (ComponentsApp.editNote id v notes) = ids notes
  ∧ length (ComponentsApp.editNote id v notes) = length notes.
Proof.
  rewrite editNote_task_fmap. destruct (blank v); [done|].
  split; [|split].
  - rewrite <- list_fmap_compose. apply list_fmap_ext.
    intros _ n _. simpl. by case_decide.
  - apply ids_fmap_preserved. intros n. by case_decide.
  - apply length_fmap.
Qed.

(** X5.  Of two commits to the same id, the later one wins when its value is
    not blank: the first value leaves no trace. *)
Theorem editNote_task_last_wins
    {Id : Type} `{EqDecision Id} (id : Id) (v1 v2 : jsstring)
    (notes : list (note Id)) :
  blank v2 = false →
  ComponentsApp.editNote id v2 (ComponentsApp.editNote id v1 notes)
  = ComponentsApp.editNote id v2 notes.
Proof.
  intros Hv2. rewrite !editNote_task_fmap, Hv2.
  destruct (blank v1); [done|]. rewrite <- list_fmap_compose.
  apply list_fmap_ext. intros _ n _. simpl.
  repeat (case_decide; simpl in * ); done.
Qed.

Lemma editNote_task_last_wins_witness :
  let notes := [Note 1 (js "a") true; Note 2 (js "b") false] in
  ComponentsApp.editNote 1 (js "y ") (ComponentsApp.editNote 1 (js "x") notes)
  = ComponentsApp.editNote 1 (js "y ") notes.
Proof.
  apply (editNote_task_last_wins 1 (js "x") (js "y ")
           [Note 1 (js "a") true; Note 2 (js "b") false]).
  reflexivity.
Defined.

(** X6.  Commits to two different ids can be made in either order. *)
Theorem editNote_task_commutes
    {Id : Type} `{EqDecision Id} (a b : Id) (v w : jsstring)
    (notes : list (note Id)) :
  a ≠ b →
  ComponentsApp.editNote a v (ComponentsApp.editNote b w notes)
  = ComponentsApp.editNote b w (ComponentsApp.editNote a v notes).
Proof.
  intros Hab. rewrite !editNote_task_fmap.
  destruct (blank v), (blank w); try done.
  rewrite <- !list_fmap_compose. apply list_fmap_ext. intros _ n _. simpl.
  repeat (case_decide; simpl in * ); congruence.
Qed.

Lemma editNote_task_commutes_witness :
  let notes := [Note 1 (js "a") true; Note 2 (js "b") false] in
  ComponentsApp.editNote 1 (js "x") (ComponentsApp.editNote 2 (js "y") notes)
  = ComponentsApp.editNote 2 (js "y") (ComponentsApp.editNote 1 (js "x") notes).
Proof.
  apply (editNote_task_commutes 1 2 (js "x") (js "y")
           [Note 1 (js "a") true; Note 2 (js "b") false]).
  lia.
Defined.

(** ** The [Note] class: which events count *)

Section note_events.
Context {H : Type}.
Implicit Types (p : ComponentsNote.props H) (h : ComponentsNote.history H)
  (v key : jsstring).

Lemma next_other_key p h key v :
  key ≠ js "Enter" → ComponentsNote.next p h (ComponentsNote.keypress key v) = h.
Proof.
  intros Hkey. destruct h as [[b] k cs]. unfold ComponentsNote.next.
  destruct b; unfold ComponentsNote.dispatch; simpl.
  - unfold ComponentsNote.checkEnter. simpl.
    rewrite decide_False by congruence. simpl. by rewrite app_nil_r.
  - by rewrite app_nil_r.
Qed.

Lemma next_enter_blur p h v :
  ComponentsNote.next p h (ComponentsNote.keypress (js "Enter") v)
  = ComponentsNote.next p h (ComponentsNote.blur v).
Proof.
  destruct h as [[b] k cs]. unfold ComponentsNote.next.
  destruct b; unfold ComponentsNote.dispatch; simpl; [|done].
  unfold ComponentsNote.checkEnter, ComponentsNote.finishEdit. simpl.
  by destruct (ComponentsNote.onEdit p).
Qed.

Lemma next_without_onEdit p h i :
  ComponentsNote.onEdit p = None →
  ComponentsNote.calls (ComponentsNote.next p h i) = ComponentsNote.calls h
  ∧ ComponentsNote.editing (ComponentsNote.current (ComponentsNote.next p h i))
    = ComponentsNote.editing (ComponentsNote.current h)
      || match i with ComponentsNote.click => true | _ => false end.
Proof.
  intros Hp. destruct h as [[b] k cs]. unfold ComponentsNote.next.
  destruct b, i as [|v|key v]; unfold ComponentsNote.dispatch; simpl;
    unfold ComponentsNote.checkEnter, ComponentsNote.finishEdit; simpl;
    rewrite ?Hp; try case_decide; simpl; by rewrite app_nil_r.
Qed.
End note_events.

(** X7.  A [Note] without [onEdit] cannot leave its editing state: over any
    sequence of events no call is made, and the field is shown at the end if
    and only if there was a click. *)
Theorem Note_without_onEdit_stays_open
    {H : Type} (p : ComponentsNote.props H)
    (events : list ComponentsNote.interaction) :
  ComponentsNote.onEdit p = None →
  ComponentsNote.calls (ComponentsNote.run p events) = []
  ∧ (ComponentsNote.editing (ComponentsNote.current (ComponentsNote.run p events))
     = true ↔ ComponentsNote.click ∈ events).
Proof.
  intros Hp. unfold ComponentsNote.run.
  induction events as [|i events [IHcalls IHopen]] using rev_ind.
  - split; [done|]. simpl. split; [discriminate|]. by intros ?%elem_of_nil.
  - rewrite foldl_snoc.
    destruct (next_without_onEdit p
                (foldl (ComponentsNote.next p) (ComponentsNote.start p) events)
                i Hp) as [Hcalls Hopen].
    split; [by rewrite Hcalls|].
    rewrite Hopen, orb_true_iff, IHopen, elem_of_app, list_elem_of_singleton.
    apply or_iff_compat_l. destruct i; split; congruence || done.
Qed.

Lemma Note_without_onEdit_stays_open_witness :
  let p := ComponentsNote.Props (H := unit) (js "a") None in
  let events :=
    [ComponentsNote.click; ComponentsNote.keypress (js "Enter") (js "aa");
     ComponentsNote.blur (js "aa")] in
  ComponentsNote.calls (ComponentsNote.run p events) = []
  ∧ (ComponentsNote.editing (ComponentsNote.current (ComponentsNote.run p events))
     = true ↔ ComponentsNote.click ∈ events).
Proof.
  apply (Note_without_onEdit_stays_open
           (ComponentsNote.Props (H := unit) (js "a") None)
           [ComponentsNote.click; ComponentsNote.keypress (js "Enter") (js "aa");
            ComponentsNote.blur (js "aa")]).
  reflexivity.
Defined.

(** X8.  A key other than Enter counts for nothing: taking such a key press
    out of a sequence of events, wherever it stands, leaves state, session
    and calls of the run as they are. *)
Theorem Note_ignores_other_keys
    {H : Type} (p : ComponentsNote.props H)
    (before after : list ComponentsNote.interaction) (key v : jsstring) :
  key ≠ js "Enter" →
  ComponentsNote.run p (before ++ ComponentsNote.keypress key v :: after)
  = ComponentsNote.run p (before ++ after).
Proof.
  intros Hkey. unfold ComponentsNote.run. rewrite !foldl_app. simpl.
  by rewrite next_other_key.
Qed.

Lemma Note_ignores_other_keys_witness :
  let p := ComponentsNote.Props (js "a") (Some tt) in
  ComponentsNote.run p
    ([ComponentsNote.click]
     ++ ComponentsNote.keypress (js "x") (js "ax") :: [ComponentsNote.blur (js "ax")])
  = ComponentsNote.run p ([ComponentsNote.click] ++ [ComponentsNote.blur (js "ax")]).
Proof.
  apply (Note_ignores_other_keys (ComponentsNote.Props (js "a") (Some tt))
           [ComponentsNote.click] [ComponentsNote.blur (js "ax")]
           (js "x") (js "ax")).
  discriminate.
Defined.

(** X9.  Enter commits what leaving the field commits: with Enter put in the
    place of a blur that carries the same value, anywhere in a sequence of
    events, the run is the same. *)
Theorem Note_enter_is_blur
    {H : Type} (p : ComponentsNote.props H)
    (before after : list ComponentsNote.interaction) (v : jsstring) :
  ComponentsNote.run p
    (before ++ ComponentsNote.keypress (js "Enter") v :: after)
  = ComponentsNote.run p (before ++ ComponentsNote.blur v :: after).
Proof.
  unfold ComponentsNote.run. rewrite !foldl_app. simpl.
  by rewrite next_enter_blur.
Qed.

(** ** The [Editable] stub and [Notes] around it *)

(** X10.  What the [Editable] stub renders holds the [onClick] that comes
    in with the other props, if there is one, on its outer [div]; apart from
    that it has no listener while [editing] is true, and one while it is
    false: [onValueClick], or the do-nothing default when that is left out.
    So [onEdit] is never attached, whatever it is. *)
Theorem Editable_stub_listeners
    {H Rest : Type} (onClick_of : Rest → option H) (editing : bool)
    (value : jsstring) (onEdit onValueClick : option H) (props : Rest) :
  EditableDom.listeners_with onClick_of
    (Editable.render (Editable.Editable editing value onEdit onValueClick props))
  = option_list (Editable.prop <$> onClick_of props)
    ++ (if editing then []
        else [from_option Editable.prop Editable.noop onValueClick]).
Proof. destruct editing; simpl; by rewrite ?app_nil_r. Qed.

(** X11.  [Notes] renders one item per note, in the order of the notes and
    with the id as key.  The item of a note shows the input branch exactly
    when the note is being edited, and every callback on it is bound to the
    id of that note: the one listener of a note that is not being edited is
    [onValueClick] with its id, and the button has [onDelete] with its
    id. *)
Theorem Notes_items_follow_notes
    {Id H : Type} (notes : list (note Id))
    (onValueClick onEdit onDelete : option H) (i : nat) (n : note Id) :
  notes !! i = Some n →
  AppNotes.key <$> AppNotes.Notes notes onValueClick onEdit onDelete = ids notes
  ∧ ∃ item,
      AppNotes.Notes notes onValueClick onEdit onDelete !! i = Some item
      ∧ AppNotes.key item = note_id n
      ∧ Editable.branch_of (AppNotes.editable item)
        = Some (if editing n then Editable.InputView else Editable.ValueView)
      ∧ EditableDom.listeners (Editable.render (AppNotes.editable item))
        = (if editing n then []
           else [Editable.prop (AppNotes.bind onValueClick (note_id n))])
      ∧ AppNotes.button_onClick item = AppNotes.bind onDelete (note_id n).
Proof.
  intros Hn. unfold AppNotes.Notes. split.
  - unfold ids. rewrite <- list_fmap_compose. by apply list_fmap_ext.
  - rewrite list_lookup_fmap, Hn. simpl. eexists. split; [reflexivity|].
    simpl. by destruct (editing n).
Qed.

Lemma Notes_items_follow_notes_witness :
  let notes := [Note 1 (js "a") false; Note 2 (js "b") true] in
  AppNotes.key <$> AppNotes.Notes notes (Some tt) (Some tt) None = ids notes
  ∧ ∃ item,
      AppNotes.Notes notes (Some tt) (Some tt) None !! 0 = Some item
      ∧ AppNotes.key item = 1
      ∧ Editable.branch_of (AppNotes.editable item) = Some Editable.ValueView
      ∧ EditableDom.listeners (Editable.render (AppNotes.editable item))
        = [Editable.prop (AppNotes.call tt 1)]
      ∧ AppNotes.button_onClick item = AppNotes.nothing.
Proof.
  apply (Notes_items_follow_notes
           [Note 1 (js "a") false; Note 2 (js "b") true]
           (Some tt) (Some tt) None 0 (Note 1 (js "a") false)).
  reflexivity.
Defined.

(** X12.  In [App] of [app/App.jsx], a click into the [Editable] of a note
    that is not being edited is [activateNoteEdit] with the id of that note.
    A click into the [Editable] of a note that is being edited changes
    nothing, and so does a click after the last item: once a note shows the
    stub of the input, no click into it takes it back. *)
Theorem App_click_activates_once
    {Id : Type} `{EqDecision Id} (notes : list (note Id)) (i : nat) (n : note Id) :
  notes !! i = Some n →
  AppView.click_editable i notes
  = Some (if editing n then notes else App.activateNoteEdit (note_id n) notes)
  ∧ AppView.click_editable i (App.activateNoteEdit (note_id n) notes)
    = Some (App.activateNoteEdit (note_id n) notes)
  ∧ AppView.click_editable (length notes) notes = Some notes.
Proof.
  intros Hn.
  assert (∀ (notes' : list (note Id)) (n' : note Id), notes' !! i = Some n' →
    AppView.click_editable i notes'
    = Some (if editing n' then notes'
            else App.activateNoteEdit (note_id n') notes')) as Hclick.
  { intros notes' n' Hn'. unfold AppView.click_editable, AppView.render.
    simpl. unfold AppNotes.Notes. rewrite list_lookup_fmap, Hn'. simpl.
    by destruct (editing n'). }
  split; [by apply Hclick|]. split.
  - rewrite (Hclick _ (set_editing true n)); [done|].
    unfold App.activateNoteEdit. rewrite list_lookup_fmap, Hn. simpl.
    by rewrite decide_True.
  - unfold AppView.click_editable, AppView.render. simpl.
    unfold AppNotes.Notes. rewrite list_lookup_fmap.
    by rewrite lookup_ge_None_2.
Qed.

Lemma App_click_activates_once_witness :
  let notes := [Note 1 (js "a") false; Note 2 (js "b") false] in
  AppView.click_editable 1 notes
  = Some [Note 1 (js "a") false; Note 2 (js "b") true]
  ∧ AppView.click_editable 1 (App.activateNoteEdit 2 notes)
    = Some (App.activateNoteEdit 2 notes)
  ∧ AppView.click_editable 2 notes = Some notes.
Proof.
  exact (App_click_activates_once
           [Note 1 (js "a") false; Note 2 (js "b") false] 1
           (Note 2 (js "b") false) eq_refl).
Defined.

(** ** [Lane]: the name of its store and what its callbacks reach *)

Lemma js_inj (s1 s2 : string) : js s1 = js s2 → s1 = s2.
Proof.
  unfold js. intros Heq.
  rewrite <- (String.string_of_list_ascii_of_string s1).
  rewrite <- (String.string_of_list_ascii_of_string s2). f_equal.
  revert Heq. generalize (String.list_ascii_of_string s2).
  induction (String.list_ascii_of_string s1) as [|a l IH];
    intros [|b k] Heq; try done.
  rewrite !fmap_cons in Heq. injection Heq as Hab Hlk. f_equal; [|by apply IH].
  by rewrite <- (Ascii.ascii_N_embedding a), Hab, Ascii.ascii_N_embedding.
Qed.

(** X13.  Two lanes whose numbers are different non-negative integers below
    2^53 have stores with different names: each name is "NoteStore-"
    followed by the decimal digits of the number. *)
Theorem storeName_differs_between_lanes
    {Rest : Type} (p q : LaneComponent.props Rest) :
  (LaneComponent.i p < 2 ^ 53)%N →
  (LaneComponent.i q < 2 ^ 53)%N →
  LaneComponent.i p ≠ LaneComponent.i q →
  ∃ a b,
    LaneComponent.storeName p = Some (js "NoteStore-" ++ a)
    ∧ LaneComponent.storeName q = Some (js "NoteStore-" ++ b)
    ∧ a = js (pretty (LaneComponent.i p))
    ∧ b = js (pretty (LaneComponent.i q))
    ∧ js "NoteStore-" ++ a ≠ js "NoteStore-" ++ b.
Proof.
  intros Hp Hq Hpq. unfold LaneComponent.storeName, Number_toString.
  apply N.ltb_lt in Hp, Hq. rewrite Hp, Hq.
  exists (js (pretty (LaneComponent.i p))), (js (pretty (LaneComponent.i q))).
  do 4 (split; [reflexivity|]).
  intros Heq. apply Hpq. apply app_inv_head in Heq.
  apply js_inj in Heq. by apply (inj pretty) in Heq.
Qed.

Lemma storeName_differs_between_lanes_witness :
  ∃ a b,
    LaneComponent.storeName (LaneComponent.Props (js "Todo") 1 tt)
    = Some (js "NoteStore-" ++ a)
    ∧ LaneComponent.storeName (LaneComponent.Props (js "Todo") 10 tt)
      = Some (js "NoteStore-" ++ b)
    ∧ a = js (pretty 1%N)
    ∧ b = js (pretty 10%N)
    ∧ js "NoteStore-" ++ a ≠ js "NoteStore-" ++ b.
Proof.
  apply (storeName_differs_between_lanes
           (LaneComponent.Props (js "Todo") 1 tt)
           (LaneComponent.Props (js "Todo") 10 tt)); simpl; lia.
Defined.

Example storeName_of_lane_12 :
  LaneComponent.storeName (LaneComponent.Props (js "Todo") 12 tt)
  = Some (js "NoteStore-12")
  ∧ LaneComponent.storeName (LaneComponent.Props (js "Todo") (2 ^ 53) tt) = None.
Proof. split; reflexivity. Qed.

(** X14.  What [render] of [Lane] wires up.  An edit of the lane's name goes
    to [LaneActions] with the number of the lane, never to the actions of
    the notes: the empty name asks for the lane to be removed, any other
    name, a blank one included, for an update with the name as typed.  An
    edit of a note goes to the actions of the notes with the id it comes
    with, never to [LaneActions], and the button asks them for a note
    called "New note". *)
Theorem Lane_render_wiring
    {Id Rest : Type} (p : LaneComponent.props Rest) (id : Id) (v : jsstring) :
  v ≠ [] →
  LaneComponent.header_onEdit (LaneComponent.render (Id := Id) p) []
  = LaneComponent.to_LaneActions (Lane.Remove (LaneComponent.i p))
  ∧ LaneComponent.header_onEdit (LaneComponent.render (Id := Id) p) v
    = LaneComponent.to_LaneActions (Lane.Update (LaneComponent.i p) v)
  ∧ LaneComponent.Notes_onEdit (LaneComponent.render p) id []
    = LaneComponent.to_actions (Lane.Remove id)
  ∧ LaneComponent.Notes_onEdit (LaneComponent.render p) id v
    = LaneComponent.to_actions (Lane.Update id v)
  ∧ LaneComponent.button_onClick (LaneComponent.render (Id := Id) p)
    = LaneComponent.to_actions (Lane.Create (js "New note"))
  ∧ (∀ (w : jsstring) (d : Lane.dispatched Id),
       LaneComponent.header_onEdit (LaneComponent.render p) w
       ≠ LaneComponent.to_actions d)
  ∧ (∀ (w : jsstring) (d : Lane.dispatched N),
       LaneComponent.Notes_onEdit (LaneComponent.render p) id w
       ≠ LaneComponent.to_LaneActions d).
Proof.
  intros Hv. unfold LaneComponent.render, Lane.edited. simpl.
  destruct v as [|c v]; [done|]. simpl.
  repeat split; try done; intros [|c' w] d; done.
Qed.

Lemma Lane_render_wiring_witness :
  let p := LaneComponent.Props (js "Todo") 3 tt in
  LaneComponent.header_onEdit (LaneComponent.render (Id := nat) p) []
  = LaneComponent.to_LaneActions (Lane.Remove 3%N)
  ∧ LaneComponent.header_onEdit (LaneComponent.render (Id := nat) p) (js " ")
    = LaneComponent.to_LaneActions (Lane.Update 3%N (js " ")).
Proof.
  assert (js " " ≠ []) as Hv by discriminate.
  pose proof (Lane_render_wiring (LaneComponent.Props (js "Todo") 3 tt)
                7 (js " ") Hv) as (Hremove & Hupdate & _).
  exact (conj Hremove Hupdate).
Defined.

(** ** [App] of [app/components/App.jsx] with its [Note]s *)

Section notes_tree_more.
Context {Id : Type} `{EqDecision Id}.
Implicit Types (notes : list (note Id)) (n : note Id).

Lemma ids_alter_set_editing b i notes :
  ids (alter (set_editing b) i notes) = ids notes.
Proof.
  unfold ids. rewrite (list_fmap_alter note_id (set_editing b) id).
  - by apply list_alter_id.
  - by apply Forall_true.
Qed.

Lemma ids_foldl_onEdit (calls : list (ComponentsNote.call Id)) notes :
  ids (foldl ComponentsNotes.onEdit notes calls) = ids notes.
Proof.
  revert notes. induction calls as [|c calls IH]; intros notes; [done|].
  simpl. rewrite IH. apply ids_editNote_task.
Qed.
End notes_tree_more.

(** X15.  Whatever the user does on whichever [Note], no note is added,
    dropped or moved: the ids and their order and the number of notes are as
    before; and what is done at a place after the last note changes
    nothing. *)
Theorem interact_keeps_the_notes
    {Id : Type} `{EqDecision Id} (i : nat) (a : ComponentsNote.interaction)
    (notes : list (note Id)) :
  ids (ComponentsNotes.interact i a notes) = ids notes
  ∧ length (ComponentsNotes.interact i a notes) = length notes
  ∧ (length notes ≤ i → ComponentsNotes.interact i a notes = notes).
Proof.
  assert (ids (ComponentsNotes.interact i a notes) = ids notes) as Hids.
  { unfold ComponentsNotes.interact.
    destruct (ComponentsNotes.Notes notes !! i) as [p|]; [|done].
    destruct (notes !! i) as [n|]; [|done].
    destruct (ComponentsNote.dispatch p a _) as [[[] s'] calls].
    by rewrite ids_alter_set_editing, ids_foldl_onEdit. }
  split; [exact Hids|]. split.
  - unfold ids in Hids. by rewrite <- (length_fmap note_id), Hids, length_fmap.
  - intros Hi. unfold ComponentsNotes.interact.
    rewrite (lookup_ge_None_2 notes i Hi).
    by destruct (ComponentsNotes.Notes notes !! i).
Qed.

Lemma interact_keeps_the_notes_witness :
  let notes := [Note 1 (js "a") true; Note 2 (js "b") false] in
  ids (ComponentsNotes.interact 0 (ComponentsNote.blur (js "x")) notes) = ids notes
  ∧ ComponentsNotes.interact 2 (ComponentsNote.blur (js "x")) notes = notes.
Proof.
  pose proof (interact_keeps_the_notes 0 (ComponentsNote.blur (js "x"))
                [Note 1 (js "a") true; Note 2 (js "b") false]) as (Hids & _).
  pose proof (interact_keeps_the_notes 2 (ComponentsNote.blur (js "x"))
                [Note 1 (js "a") true; Note 2 (js "b") false]) as (_ & _ & Hout).
  assert (length [Note 1 (js "a") true; Note 2 (js "b") false] ≤ 2) as Hlen
    by (simpl; lia).
  exact (conj Hids (Hout Hlen)).
Defined.

(** X16.  With unique ids, opening a note and leaving its field with the
    text as it was gives back the collection as it was, whatever the text
    is. *)
Theorem edit_without_change_is_noop
    {Id : Type} `{EqDecision Id} (notes : list (note Id)) (i : nat) (n : note Id) :
  NoDup (ids notes) →
  notes !! i = Some n →
  editing n = false →
  ComponentsNotes.interact i (ComponentsNote.blur (task n))
    (ComponentsNotes.interact i ComponentsNote.click notes)
  = notes.
Proof.
  intros Hnodup Hn He. rewrite (interact_click notes i n Hn He).
  assert (alter (set_editing true) i notes !! i = Some (set_editing true n))
    as Hopen by by rewrite list_lookup_alter_eq, Hn.
  rewrite (interact_blur _ i (set_editing true n) (task n) Hopen eq_refl).
  simpl.
  assert (ComponentsApp.editNote (note_id n) (task n)
            (alter (set_editing true) i notes)
          = alter (set_editing true) i notes) as ->.
  { rewrite editNote_task_fmap. destruct (blank (task n)); [done|].
    rewrite <- (list_fmap_id (alter _ _ _)) at 2. apply list_fmap_ext.
    intros j m Hm. case_decide as Hid; [|done].
    destruct (decide (i = j)) as [<-|Hij].
    - rewrite Hopen in Hm. injection Hm as <-. by destruct n.
    - rewrite list_lookup_alter_ne in Hm by exact Hij. exfalso. apply Hij.
      apply (NoDup_lookup (ids notes) i j (note_id n)); [exact Hnodup| |].
      + unfold ids. by rewrite list_lookup_fmap, Hn.
      + unfold ids. rewrite list_lookup_fmap, Hm. simpl. by rewrite Hid. }
  rewrite list_alter_alter_eq. apply list_eq. intros j.
  destruct (decide (i = j)) as [<-|Hij].
  - rewrite list_lookup_alter_eq, Hn. simpl. destruct n as [nid t e].
    simpl in He. by rewrite He.
  - by rewrite list_lookup_alter_ne.
Qed.

Lemma edit_without_change_is_noop_witness :
  let notes := [Note 1 (js "a") false; Note 2 (js " ") false] in
  ComponentsNotes.interact 1 (ComponentsNote.blur (js " "))
    (ComponentsNotes.interact 1 ComponentsNote.click notes)
  = notes.
Proof.
  assert (NoDup (ids [Note 1 (js "a") false; Note 2 (js " ") false])) as Hnodup.
  { unfold ids. simpl. apply NoDup_cons. split.
    - rewrite list_elem_of_singleton. lia.
    - apply NoDup_singleton. }
  exact (edit_without_change_is_noop
           [Note 1 (js "a") false; Note 2 (js " ") false] 1
           (Note 2 (js " ") false) Hnodup eq_refl eq_refl).
Defined.

(** X17.  With unique ids, a click on a [Note] that shows its text does to
    the collection what [activateNoteEdit] of [app/App.jsx] does with the id
    of its note: the two listings open a note alike. *)
Theorem Note_click_is_activateNoteEdit
    {Id : Type} `{EqDecision Id} (notes : list (note Id)) (i : nat) (n : note Id) :
  NoDup (ids notes) →
  notes !! i = Some n →
  editing n = false →
  ComponentsNotes.interact i ComponentsNote.click notes
  = App.activateNoteEdit (note_id n) notes.
Proof. apply interact_click_activateNoteEdit. Qed.

Lemma Note_click_is_activateNoteEdit_witness :
  let notes := [Note 1 (js "a") false; Note 2 (js "b") false] in
  ComponentsNotes.interact 1 ComponentsNote.click notes
  = App.activateNoteEdit 2 notes.
Proof.
  assert (NoDup (ids [Note 1 (js "a") false; Note 2 (js "b") false])) as Hnodup.
  { unfold ids. simpl. apply NoDup_cons. split.
    - rewrite list_elem_of_singleton. lia.
    - apply NoDup_singleton. }
  exact (Note_click_is_activateNoteEdit
           [Note 1 (js "a") false; Note 2 (js "b") false] 1
           (Note 2 (js "b") false) Hnodup eq_refl eq_refl).
Defined.
